(** * BiasAdjustment: a real-time bias smoother

    Shallow embedding of [src/apply_adjust_bias.py] (class
    [BiasAdjustment]) and the properties its specification states.

    Conventions of the embedding:
    - indices and [response_time] are Python [int]s (the class docstring
      types them so) and are modelled as [Z];
    - bias values are Python numbers, idealised as real numbers [R];
      [np.exp] is the real exponential [exp];
    - [bias_type] is a Python [str], modelled as [string];
    - the object [self] is passed explicitly and every method returns the
      new object next to its Python return value;
    - Python's true division raises [ZeroDivisionError] on a zero divisor;
      fallible methods return a [result]. When a method raises, no
      attribute has been assigned, so the caller keeps the object it
      passed.  Integers are taken inside the range of a float: the
      [OverflowError] of converting a larger one is not modelled;
    - module [Ieee] gives the methods that only compare and store bias
      values ([__init__], [update_target_bias], [validate_bias_input])
      a second time over IEEE 754 doubles, where [!=] is true of a NaN
      and itself. *)

From Stdlib Require Import ZArith Reals Lra Lia String List Bool.
From Stdlib Require Import PrimFloat.
Import ListNotations.

Open Scope string_scope.
Open Scope Z_scope.
Open Scope R_scope.

(** ** Python-level helpers *)

Module Py.

Inductive exn : Set := ZeroDivisionError.

Inductive result (A : Type) : Type :=
| Ok (a : A)
| Raise (e : exn).
Arguments Ok {A} a.
Arguments Raise {A} e.

Definition bind {A B : Type} (m : result A) (k : A -> result B) : result B :=
  match m with
  | Ok a => k a
  | Raise e => Raise e
  end.

(** [x / d] where the divisor is an [int]. *)
Definition truediv (x : R) (d : Z) : result R :=
  if (d =? 0)%Z then Raise ZeroDivisionError else Ok (x / IZR d).

(** [x != y] on numbers. *)
Definition ne (x y : R) : bool :=
  if Req_dec_T x y then false else true.

End Py.

Import Py.

Notation "x <- m ;; k" := (Py.bind m (fun x => k))
  (at level 61, m at next level, right associativity).

(** ** The object *)

Record BiasAdjustment : Type := mkBiasAdjustment {
  response_time : Z;
  bias_level : R;
  target_bias : R;
  last_target_bias : R;
  target_index : Z;
  last_update_index : Z
}.

(** [self.bias_level = v] *)
Definition set_bias_level (self : BiasAdjustment) (v : R) : BiasAdjustment :=
  {| response_time := response_time self;
     bias_level := v;
     target_bias := target_bias self;
     last_target_bias := last_target_bias self;
     target_index := target_index self;
     last_update_index := last_update_index self |}.

(** [BiasAdjustment(response_time, bias_init)] *)
Definition init (response_time0 : Z) (bias_init : R) : BiasAdjustment :=
  {| response_time := response_time0;
     bias_level := bias_init;
     target_bias := 0;
     last_target_bias := bias_init;
     target_index := 0;
     last_update_index := 0 |}.

(** [update_target_bias(new_index, new_bias)] *)
Definition update_target_bias (self : BiasAdjustment) (new_index : Z) (new_bias : R)
  : BiasAdjustment :=
  {| response_time := response_time self;
     bias_level := bias_level self;
     target_bias := new_bias;
     last_target_bias := target_bias self;
     target_index := (new_index + response_time self)%Z;
     last_update_index := new_index |}.

(** [validate_bias_input(index, bias_input)] *)
Definition validate_bias_input (self : BiasAdjustment) (index : Z) (bias_input : R)
  : bool * BiasAdjustment :=
  if Py.ne (target_bias self) bias_input
  then (true, update_target_bias self index bias_input)
  else (false, self).

(** The value the ['gradual'] branch computes before [target_index]. *)
Definition gradual_value (self : BiasAdjustment) (current_index : Z) : result R :=
  let time_elapsed := (current_index - last_update_index self)%Z in
  q <- truediv (IZR (- time_elapsed)) (response_time self) ;;
  let change := 1 - exp q in
  Ok (bias_level self + (target_bias self - bias_level self) * change).

(** The value the ['linear'] branch computes before [target_index]. *)
Definition linear_value (self : BiasAdjustment) (current_index : Z) : result R :=
  slope <- truediv (target_bias self - last_target_bias self)
                   (target_index self - last_update_index self) ;;
  Ok (slope * IZR (current_index - last_update_index self) + last_target_bias self).

(** [calculate_bias(current_index, bias_type)] *)
Definition calculate_bias (self : BiasAdjustment) (current_index : Z) (bias_type : string)
  : result (R * BiasAdjustment) :=
  v <- (if bias_type =? "gradual" then
          if (current_index <? target_index self)%Z
          then gradual_value self current_index
          else Ok (target_bias self)
        else if bias_type =? "linear" then
          if (current_index <? target_index self)%Z
          then linear_value self current_index
          else Ok (target_bias self)
        else Ok (bias_level self))%string ;;
  Ok (v, set_bias_level self v).

(** [apply_bias(index, bias_input, bias_type)] *)
Definition apply_bias (self : BiasAdjustment) (index : Z) (bias_input : R)
    (bias_type : string) : result (R * BiasAdjustment) :=
  let '(is_changed, self1) := validate_bias_input self index bias_input in
  let has_not_arrived := (index <=? target_index self1)%Z in
  if is_changed || has_not_arrived
  then calculate_bias self1 index bias_type
  else Ok (bias_level self1, self1).

(** Successive [calculate_bias] calls on the same object with one
    [bias_type]; the returned values are collected in call order. *)
Fixpoint calculate_all (self : BiasAdjustment) (bias_type : string) (indices : list Z)
  : result (list R * BiasAdjustment) :=
  match indices with
  | [] => Ok ([], self)
  | i :: rest =>
      r <- calculate_bias self i bias_type ;;
      rs <- calculate_all (snd r) bias_type rest ;;
      Ok (fst r :: fst rs, snd rs)
  end.

(** States an object can be in: freshly constructed, or after any public
    method call with any arguments.  A call that raises is covered: the
    object is then the one before the call ([calculate_bias]) or the one
    [validate_bias_input] left ([apply_bias]). *)
Inductive reachable (response_time0 : Z) (bias_init : R) : BiasAdjustment -> Prop :=
| reach_init : reachable response_time0 bias_init (init response_time0 bias_init)
| reach_update self i b :
    reachable response_time0 bias_init self ->
    reachable response_time0 bias_init (update_target_bias self i b)
| reach_validate self i b :
    reachable response_time0 bias_init self ->
    reachable response_time0 bias_init (snd (validate_bias_input self i b))
| reach_calculate self i ty v self' :
    reachable response_time0 bias_init self ->
    calculate_bias self i ty = Ok (v, self') ->
    reachable response_time0 bias_init self'
| reach_apply self i b ty v self' :
    reachable response_time0 bias_init self ->
    apply_bias self i b ty = Ok (v, self') ->
    reachable response_time0 bias_init self'.

(** Non-decreasing sequence of values. *)
Fixpoint nondecreasing (vs : list R) : Prop :=
  match vs with
  | [] => True
  | v :: rest =>
      match rest with
      | [] => True
      | w :: _ => v <= w /\ nondecreasing rest
      end
  end.

(** Strictly increasing sequence of indices. *)
Fixpoint increasing (indices : list Z) : Prop :=
  match indices with
  | [] => True
  | i :: rest =>
      match rest with
      | [] => True
      | j :: _ => (i < j)%Z /\ increasing rest
      end
  end.

(** An object built with [response_time=0] whose target 10 was set at
    index 5. *)
Definition zero_response : BiasAdjustment :=
  update_target_bias (init 0 0) 5 10.

(** The default object, [BiasAdjustment()]. *)
Definition fresh : BiasAdjustment := init 20 0.

(** ** The comparing methods over IEEE 754 doubles *)

Module Ieee.

(** [x != y] on floats: the negation of [==], so true when either side
    is a NaN. *)
Definition ne (x y : float) : bool := negb (PrimFloat.eqb x y).

Record BiasAdjustment : Type := mkBiasAdjustment {
  response_time : Z;
  bias_level : float;
  target_bias : float;
  last_target_bias : float;
  target_index : Z;
  last_update_index : Z
}.

(** [BiasAdjustment(response_time, bias_init)] *)
Definition init (response_time0 : Z) (bias_init : float) : BiasAdjustment :=
  {| response_time := response_time0;
     bias_level := bias_init;
     target_bias := PrimFloat.zero;
     last_target_bias := bias_init;
     target_index := 0;
     last_update_index := 0 |}.

(** [update_target_bias(new_index, new_bias)] *)
Definition update_target_bias (self : BiasAdjustment) (new_index : Z) (new_bias : float)
  : BiasAdjustment :=
  {| response_time := response_time self;
     bias_level := bias_level self;
     target_bias := new_bias;
     last_target_bias := target_bias self;
     target_index := (new_index + response_time self)%Z;
     last_update_index := new_index |}.

(** [validate_bias_input(index, bias_input)] *)
Definition validate_bias_input (self : BiasAdjustment) (index : Z) (bias_input : float)
  : bool * BiasAdjustment :=
  if ne (target_bias self) bias_input
  then (true, update_target_bias self index bias_input)
  else (false, self).

End Ieee.

(** Successive [apply_bias] calls that offer the same [bias_input] with
    one [bias_type], as a caller polling the object does; the returned
    values are collected in call order. *)
Fixpoint apply_all (self : BiasAdjustment) (bias_input : R) (bias_type : string)
    (indices : list Z) : result (list R * BiasAdjustment) :=
  match indices with
  | [] => Ok ([], self)
  | i :: rest =>
      r <- apply_bias self i bias_input bias_type ;;
      rs <- apply_all (snd r) bias_input bias_type rest ;;
      Ok (fst r :: fst rs, snd rs)
  end.

(** Sum of the [time_elapsed] of calls made at [indices]. *)
Definition total_elapsed (self : BiasAdjustment) (indices : list Z) : Z :=
  fold_right (fun i acc => (i - last_update_index self + acc)%Z) 0%Z indices.

(** Non-increasing sequence of values. *)
Fixpoint nonincreasing (vs : list R) : Prop :=
  match vs with
  | [] => True
  | v :: rest =>
      match rest with
      | [] => True
      | w :: _ => w <= v /\ nonincreasing rest
      end
  end.

(** ** Basic facts *)

Section Basics.

Variable self : BiasAdjustment.

Lemma ne_true (x y : R) : x <> y -> Py.ne x y = true.
Proof.
  intros Hxy. unfold Py.ne. destruct (Req_dec_T x y); [contradiction | reflexivity].
Qed.

Lemma ne_false (x y : R) : x = y -> Py.ne x y = false.
Proof.
  intros Hxy. unfold Py.ne. destruct (Req_dec_T x y); [reflexivity | contradiction].
Qed.

Lemma set_bias_level_same : set_bias_level self (bias_level self) = self.
Proof. destruct self; reflexivity. Qed.

Lemma validate_changed (i : Z) (b : R) :
  target_bias self <> b ->
  validate_bias_input self i b = (true, update_target_bias self i b).
Proof.
  intros Hne. unfold validate_bias_input. rewrite (ne_true _ _ Hne). reflexivity.
Qed.

Lemma validate_unchanged (i : Z) (b : R) :
  target_bias self = b ->
  validate_bias_input self i b = (false, self).
Proof.
  intros He. unfold validate_bias_input. rewrite (ne_false _ _ He). reflexivity.
Qed.

Lemma truediv_nonzero (x : R) (d : Z) :
  d <> 0%Z -> truediv x d = Ok (x / IZR d).
Proof.
  intros Hd. unfold truediv. destruct (Z.eqb_spec d 0); [contradiction | reflexivity].
Qed.

Lemma truediv_zero (x : R) : truediv x 0 = Raise ZeroDivisionError.
Proof. reflexivity. Qed.

Lemma calculate_gradual_before (i : Z) :
  (i < target_index self)%Z ->
  calculate_bias self i "gradual" =
  (v <- gradual_value self i ;; Ok (v, set_bias_level self v)).
Proof.
  intros Hlt. unfold calculate_bias. apply Z.ltb_lt in Hlt. simpl. rewrite Hlt. reflexivity.
Qed.

Lemma calculate_linear_before (i : Z) :
  (i < target_index self)%Z ->
  calculate_bias self i "linear" =
  (v <- linear_value self i ;; Ok (v, set_bias_level self v)).
Proof.
  intros Hlt. unfold calculate_bias. apply Z.ltb_lt in Hlt. simpl. rewrite Hlt. reflexivity.
Qed.

Lemma calculate_arrived (i : Z) (ty : string) :
  (target_index self <= i)%Z ->
  ty = "gradual" \/ ty = "linear" ->
  calculate_bias self i ty =
  Ok (target_bias self, set_bias_level self (target_bias self)).
Proof.
  intros Hle Hty. apply Z.ltb_ge in Hle.
  unfold calculate_bias. destruct Hty as [-> | ->]; simpl; rewrite Hle; reflexivity.
Qed.

Lemma calculate_hold (i : Z) (ty : string) :
  ty <> "gradual" -> ty <> "linear" ->
  calculate_bias self i ty = Ok (bias_level self, self).
Proof.
  intros Hg Hl. unfold calculate_bias.
  apply String.eqb_neq in Hg. apply String.eqb_neq in Hl.
  rewrite Hg, Hl. simpl. rewrite set_bias_level_same. reflexivity.
Qed.

End Basics.

(** ** [validate_bias_input] and [update_target_bias] *)

(** C4: when [bias_input] differs from the stored [target_bias],
    [validate_bias_input] returns [True]; afterwards [last_target_bias] is
    the old target, [target_bias] is [bias_input], [last_update_index] is
    [index] and [target_index] is [index + response_time], so
    [target_index = last_update_index + response_time] holds after the
    update.  [response_time] and [bias_level] are not touched. *)
Theorem validate_bias_input_updates (self : BiasAdjustment) (index : Z) (bias_input : R) :
  target_bias self <> bias_input ->
  let r := validate_bias_input self index bias_input in
  fst r = true /\
  last_target_bias (snd r) = target_bias self /\
  target_bias (snd r) = bias_input /\
  last_update_index (snd r) = index /\
  target_index (snd r) = (index + response_time self)%Z /\
  target_index (snd r) = (last_update_index (snd r) + response_time (snd r))%Z /\
  response_time (snd r) = response_time self /\
  bias_level (snd r) = bias_level self.
Proof.
  intros Hne r. subst r. rewrite (validate_changed self index bias_input Hne).
  cbn. repeat split; reflexivity.
Qed.

Lemma validate_bias_input_updates_witness :
  let r := validate_bias_input fresh 7 10 in
  fst r = true /\
  last_target_bias (snd r) = target_bias fresh /\
  target_bias (snd r) = 10 /\
  last_update_index (snd r) = 7%Z /\
  target_index (snd r) = (7 + response_time fresh)%Z /\
  target_index (snd r) = (last_update_index (snd r) + response_time (snd r))%Z /\
  response_time (snd r) = response_time fresh /\
  bias_level (snd r) = bias_level fresh.
Proof.
  apply (validate_bias_input_updates fresh 7 10). cbn. lra.
Defined.

(** Offering a NaN twice: [nan != nan] is true, so the second call
    returns [True] again, rewrites [last_target_bias], and moves the
    window when the index moved. *)
Lemma validate_bias_input_nan_updates_again :
  let once := snd (Ieee.validate_bias_input (Ieee.init 20 3%float) 4 nan) in
  let twice := snd (Ieee.validate_bias_input once 4 nan) in
  let later := snd (Ieee.validate_bias_input once 9 nan) in
  fst (Ieee.validate_bias_input once 4 nan) = true /\
  is_nan (Ieee.last_target_bias once) = false /\
  is_nan (Ieee.last_target_bias twice) = true /\
  (Ieee.last_update_index once = 4 /\ Ieee.target_index once = 24)%Z /\
  (Ieee.last_update_index later = 9 /\ Ieee.target_index later = 29)%Z /\
  ~ (forall (self : Ieee.BiasAdjustment) (i : Z) (T : float),
        let once := snd (Ieee.validate_bias_input self i T) in
        Ieee.validate_bias_input once i T = (false, once)).
Proof.
  cbn zeta. repeat split; try reflexivity.
  intros Hall. specialize (Hall (Ieee.init 20 3%float) 4%Z nan).
  cbn zeta in Hall. apply (f_equal fst) in Hall. vm_compute in Hall. discriminate Hall.
Qed.

(** C5, amended: when [bias_input] compares equal to the stored
    [target_bias] ([target_bias != bias_input] is false),
    [validate_bias_input] returns [False] and the object is unchanged,
    all six attributes included; and for a [T] that is not a NaN
    ([T != T] is false) a second call with the value just offered
    returns [False] and changes nothing, whatever the first call did. *)
Theorem validate_bias_input_equal_is_noop (self other : Ieee.BiasAdjustment) (i j : Z)
    (T : float) :
  Ieee.ne (Ieee.target_bias self) T = false ->
  Ieee.ne T T = false ->
  Ieee.validate_bias_input self i T = (false, self) /\
  (let once := snd (Ieee.validate_bias_input other i T) in
   Ieee.validate_bias_input once j T = (false, once)).
Proof.
  intros Heq Hself. split.
  - unfold Ieee.validate_bias_input. rewrite Heq. reflexivity.
  - cbn zeta. unfold Ieee.validate_bias_input.
    destruct (Ieee.ne (Ieee.target_bias other) T) eqn:Hfirst;
      cbn [snd Ieee.target_bias Ieee.update_target_bias].
    + rewrite Hself. reflexivity.
    + rewrite Hfirst. reflexivity.
Qed.

Lemma validate_bias_input_equal_is_noop_witness :
  let self := Ieee.update_target_bias (Ieee.init 20 3%float) 2 10%float in
  Ieee.validate_bias_input self 4 10%float = (false, self) /\
  (let once := snd (Ieee.validate_bias_input (Ieee.init 20 3%float) 4 10%float) in
   Ieee.validate_bias_input once 7 10%float = (false, once)).
Proof.
  apply (validate_bias_input_equal_is_noop
           (Ieee.update_target_bias (Ieee.init 20 3%float) 2 10%float)
           (Ieee.init 20 3%float) 4 7 10%float); reflexivity.
Defined.

(** ** [calculate_bias] *)

(** C1: at an index at or after [target_index], [calculate_bias] with
    ['gradual'] or ['linear'] stores [target_bias] in [bias_level] and
    returns it; so a target [T] set at index [i] is returned, and held
    in [bias_level], exactly at index [i + response_time]. *)
Theorem calculate_bias_converges (self : BiasAdjustment) (i : Z) (ty : string) (T : R) :
  ty = "gradual" \/ ty = "linear" ->
  ((target_index self <= i)%Z ->
   exists self',
     calculate_bias self i ty = Ok (target_bias self, self') /\
     bias_level self' = target_bias self /\
     self' = set_bias_level self (target_bias self)) /\
  (let set := update_target_bias self i T in
   exists self',
     calculate_bias set (i + response_time self) ty = Ok (T, self') /\
     bias_level self' = T /\
     self' = set_bias_level set T) /\
  (target_bias self <> T ->
   let set := snd (validate_bias_input self i T) in
   exists self',
     calculate_bias set (i + response_time self) ty = Ok (T, self') /\
     bias_level self' = T /\
     self' = set_bias_level set T).
Proof.
  intros Hty. split; [| split].
  - intros Hle. exists (set_bias_level self (target_bias self)).
    split; [apply calculate_arrived; assumption | split; reflexivity].
  - cbn zeta. exists (set_bias_level (update_target_bias self i T) T).
    split; [| split; reflexivity].
    apply (calculate_arrived (update_target_bias self i T)); [cbn; lia | exact Hty].
  - intros Hne. rewrite (validate_changed self i T Hne). cbn [snd].
    exists (set_bias_level (update_target_bias self i T) T).
    split; [| split; reflexivity].
    apply (calculate_arrived (update_target_bias self i T)); [cbn; lia | exact Hty].
Qed.

Lemma calculate_bias_converges_witness :
  let self := set_bias_level (update_target_bias (init 20 3) 1 10) 4 in
  ((target_index self <= 21)%Z ->
   exists self',
     calculate_bias self 21 "linear" = Ok (target_bias self, self') /\
     bias_level self' = target_bias self /\
     self' = set_bias_level self (target_bias self)) /\
  (let set := update_target_bias self 21 7 in
   exists self',
     calculate_bias set (21 + response_time self) "linear" = Ok (7, self') /\
     bias_level self' = 7 /\
     self' = set_bias_level set 7) /\
  (target_bias self <> 7 ->
   let set := snd (validate_bias_input self 21 7) in
   exists self',
     calculate_bias set (21 + response_time self) "linear" = Ok (7, self') /\
     bias_level self' = 7 /\
     self' = set_bias_level set 7).
Proof.
  apply (calculate_bias_converges
           (set_bias_level (update_target_bias (init 20 3) 1 10) 4) 21 "linear" 7).
  right. reflexivity.
Defined.

(** C7: with a [bias_type] other than ['gradual'] and ['linear'],
    [calculate_bias] returns the stored [bias_level] and leaves every
    attribute as it was. *)
Theorem calculate_bias_unknown_type (self : BiasAdjustment) (i : Z) (ty : string) :
  ty <> "gradual" -> ty <> "linear" ->
  calculate_bias self i ty = Ok (bias_level self, self).
Proof.
  intros Hg Hl. apply calculate_hold; assumption.
Qed.

Lemma calculate_bias_unknown_type_witness :
  calculate_bias fresh 5 "bogus" = Ok (bias_level fresh, fresh).
Proof.
  apply (calculate_bias_unknown_type fresh 5 "bogus"); discriminate.
Defined.

(** C10: a new object has [target_bias = 0] and
    [last_update_index = target_index = 0] whatever [response_time] and
    [bias_init] are, so its first [calculate_bias] with ['gradual'] or
    ['linear'] at an index [>= 0] takes the arrival branch: it returns 0
    and stores 0 in [bias_level], and [bias_init] is lost. *)
Theorem fresh_calculate_bias_zero (rt : Z) (bias_init : R) (i : Z) (ty : string) :
  (0 <= i)%Z ->
  ty = "gradual" \/ ty = "linear" ->
  target_bias (init rt bias_init) = 0 /\
  last_update_index (init rt bias_init) = 0%Z /\
  target_index (init rt bias_init) = 0%Z /\
  bias_level (init rt bias_init) = bias_init /\
  exists self',
    calculate_bias (init rt bias_init) i ty = Ok (0, self') /\
    bias_level self' = 0 /\
    self' = set_bias_level (init rt bias_init) 0.
Proof.
  intros Hi Hty. repeat split.
  exists (set_bias_level (init rt bias_init) 0). repeat split.
  apply (calculate_arrived (init rt bias_init)); [cbn; lia | exact Hty].
Qed.

Lemma fresh_calculate_bias_zero_witness :
  target_bias (init 20 7) = 0 /\
  last_update_index (init 20 7) = 0%Z /\
  target_index (init 20 7) = 0%Z /\
  bias_level (init 20 7) = 7 /\
  exists self',
    calculate_bias (init 20 7) 0 "gradual" = Ok (0, self') /\
    bias_level self' = 0 /\
    self' = set_bias_level (init 20 7) 0.
Proof.
  apply (fresh_calculate_bias_zero 20 7 0 "gradual"); [lia | left; reflexivity].
Defined.

(** With [response_time = 0] the quotient [-time_elapsed / response_time]
    of the ['gradual'] branch raises, so before [target_index] the call
    returns nothing and assigns nothing. *)
Lemma gradual_zero_response_raises :
  (3 < target_index zero_response)%Z /\
  calculate_bias zero_response 3 "gradual" = Raise ZeroDivisionError /\
  ~ (forall (self : BiasAdjustment) (i : Z),
        (i < target_index self)%Z ->
        exists v, calculate_bias self i "gradual" = Ok (v, set_bias_level self v)).
Proof.
  split; [cbn; lia |]. split; [reflexivity |].
  intros Hall. destruct (Hall zero_response 3%Z) as [v Hv]; [cbn; lia |].
  discriminate Hv.
Qed.

(** C2: before [target_index], and with [response_time] not 0,
    [calculate_bias] with ['gradual'] takes
    [time_elapsed = current_index - last_update_index], replaces
    [bias_level] by
    [bias_level + (target_bias - bias_level) * (1 - exp (-time_elapsed / response_time))],
    which starts from the [bias_level] stored before the call, and returns
    the new value. *)
Theorem calculate_bias_gradual (self : BiasAdjustment) (i : Z) :
  response_time self <> 0%Z ->
  (i < target_index self)%Z ->
  let time_elapsed := (i - last_update_index self)%Z in
  let change := 1 - exp (IZR (- time_elapsed) / IZR (response_time self)) in
  let v := bias_level self + (target_bias self - bias_level self) * change in
  (exists self',
     calculate_bias self i "gradual" = Ok (v, self') /\
     bias_level self' = v /\
     self' = set_bias_level self v) /\
  IZR (- time_elapsed) / IZR (response_time self)
  = - (IZR time_elapsed / IZR (response_time self)).
Proof.
  intros Hrt Hlt time_elapsed change v. split.
  - exists (set_bias_level self v). split; [| split; reflexivity].
    rewrite (calculate_gradual_before self i Hlt). unfold gradual_value.
    rewrite (truediv_nonzero _ _ Hrt). reflexivity.
  - rewrite opp_IZR. unfold Rdiv. ring.
Qed.

Lemma calculate_bias_gradual_witness :
  let self := update_target_bias (init 20 3) 0 10 in
  let time_elapsed := (4 - last_update_index self)%Z in
  let change := 1 - exp (IZR (- time_elapsed) / IZR (response_time self)) in
  let v := bias_level self + (target_bias self - bias_level self) * change in
  (exists self',
     calculate_bias self 4 "gradual" = Ok (v, self') /\
     bias_level self' = v /\
     self' = set_bias_level self v) /\
  IZR (- time_elapsed) / IZR (response_time self)
  = - (IZR time_elapsed / IZR (response_time self)).
Proof.
  apply (calculate_bias_gradual (update_target_bias (init 20 3) 0 10) 4); cbn; lia.
Defined.

(** C3: before [target_index], and with
    [target_index <> last_update_index], [calculate_bias] with ['linear']
    stores in [bias_level] and returns
    [slope * (current_index - last_update_index) + last_target_bias]
    where [slope = (target_bias - last_target_bias) / (target_index - last_update_index)];
    an object with the same targets and indices gets the same value,
    whatever its [bias_level] and [response_time] are. *)
Theorem calculate_bias_linear (self : BiasAdjustment) (i : Z) :
  (i < target_index self)%Z ->
  target_index self <> last_update_index self ->
  let slope := (target_bias self - last_target_bias self)
               / IZR (target_index self - last_update_index self) in
  let v := slope * IZR (i - last_update_index self) + last_target_bias self in
  (exists self',
     calculate_bias self i "linear" = Ok (v, self') /\
     bias_level self' = v /\
     self' = set_bias_level self v) /\
  (forall other : BiasAdjustment,
     target_bias other = target_bias self ->
     last_target_bias other = last_target_bias self ->
     target_index other = target_index self ->
     last_update_index other = last_update_index self ->
     exists other',
       calculate_bias other i "linear" = Ok (v, other') /\
       bias_level other' = v).
Proof.
  intros Hlt Hne slope v.
  assert (Hd : (target_index self - last_update_index self)%Z <> 0%Z) by lia.
  split.
  - exists (set_bias_level self v). split; [| split; reflexivity].
    rewrite (calculate_linear_before self i Hlt). unfold linear_value.
    rewrite (truediv_nonzero _ _ Hd). reflexivity.
  - intros other HT HP Hhi Hlo. exists (set_bias_level other v).
    split; [| reflexivity].
    rewrite (calculate_linear_before other i) by (rewrite Hhi; exact Hlt).
    unfold linear_value. rewrite HT, HP, Hhi, Hlo.
    rewrite (truediv_nonzero _ _ Hd). reflexivity.
Qed.

Lemma calculate_bias_linear_witness :
  let self := set_bias_level (update_target_bias (init 20 3) 0 10) 8 in
  let slope := (target_bias self - last_target_bias self)
               / IZR (target_index self - last_update_index self) in
  let v := slope * IZR (4 - last_update_index self) + last_target_bias self in
  (exists self',
     calculate_bias self 4 "linear" = Ok (v, self') /\
     bias_level self' = v /\
     self' = set_bias_level self v) /\
  (forall other : BiasAdjustment,
     target_bias other = target_bias self ->
     last_target_bias other = last_target_bias self ->
     target_index other = target_index self ->
     last_update_index other = last_update_index self ->
     exists other',
       calculate_bias other 4 "linear" = Ok (v, other') /\
       bias_level other' = v).
Proof.
  apply (calculate_bias_linear (set_bias_level (update_target_bias (init 20 3) 0 10) 8) 4);
    cbn; lia.
Defined.

(** ** [apply_bias] *)

Section Apply.

Variables (self : BiasAdjustment) (index : Z) (bias_input : R) (ty : string).

Lemma apply_bias_changed :
  target_bias self <> bias_input ->
  apply_bias self index bias_input ty
  = calculate_bias (update_target_bias self index bias_input) index ty.
Proof.
  intros Hne. unfold apply_bias.
  rewrite (validate_changed self index bias_input Hne). reflexivity.
Qed.

Lemma apply_bias_pending :
  target_bias self = bias_input -> (index <= target_index self)%Z ->
  apply_bias self index bias_input ty = calculate_bias self index ty.
Proof.
  intros He Hle. unfold apply_bias.
  rewrite (validate_unchanged self index bias_input He).
  apply Z.leb_le in Hle. rewrite Hle. reflexivity.
Qed.

Lemma apply_bias_settled :
  target_bias self = bias_input -> (target_index self < index)%Z ->
  apply_bias self index bias_input ty = Ok (bias_level self, self).
Proof.
  intros He Hlt. unfold apply_bias.
  rewrite (validate_unchanged self index bias_input He).
  apply Z.leb_gt in Hlt. rewrite Hlt. reflexivity.
Qed.

End Apply.

(** C6: [apply_bias] first runs [validate_bias_input]; it then calls
    [calculate_bias] on the resulting object exactly when the target was
    just changed or [index <= target_index]; otherwise it returns the
    stored [bias_level] and the object is the one it was given. *)
Theorem apply_bias_cases (self : BiasAdjustment) (index : Z) (bias_input : R)
    (ty : string) :
  (target_bias self <> bias_input ->
   apply_bias self index bias_input ty
   = calculate_bias (update_target_bias self index bias_input) index ty) /\
  (target_bias self = bias_input -> (index <= target_index self)%Z ->
   apply_bias self index bias_input ty = calculate_bias self index ty) /\
  (target_bias self = bias_input -> (target_index self < index)%Z ->
   apply_bias self index bias_input ty = Ok (bias_level self, self)) /\
  (let r := validate_bias_input self index bias_input in
   apply_bias self index bias_input ty
   = if fst r || (index <=? target_index (snd r))%Z
     then calculate_bias (snd r) index ty
     else Ok (bias_level self, self)).
Proof.
  split; [apply apply_bias_changed |].
  split; [apply apply_bias_pending |].
  split; [apply apply_bias_settled |].
  cbn zeta. unfold apply_bias, validate_bias_input.
  destruct (Py.ne (target_bias self) bias_input); reflexivity.
Qed.

(** The walk-through of the specification: built with
    [response_time=20, bias_init=0]; [apply_bias(0, 10, 'gradual')] gives
    0, [apply_bias(20, 10, 'gradual')] gives 10,
    [apply_bias(20, 5, 'linear')] gives 10 and
    [apply_bias(40, 5, 'linear')] gives 5. *)
Example scenario :
  exists s1 s2 s3 s4 : BiasAdjustment,
    apply_bias fresh 0 10 "gradual" = Ok (0, s1) /\
    apply_bias s1 20 10 "gradual" = Ok (10, s2) /\
    apply_bias s2 20 5 "linear" = Ok (10, s3) /\
    apply_bias s3 40 5 "linear" = Ok (5, s4) /\
    last_target_bias s3 = 10 /\ last_update_index s3 = 20%Z /\ target_index s3 = 40%Z.
Proof.
  assert (H1 : apply_bias fresh 0 10 "gradual"
               = Ok (0, set_bias_level (update_target_bias fresh 0 10) 0)).
  { rewrite apply_bias_changed by (cbn; lra).
    rewrite calculate_gradual_before by (cbn; lia).
    unfold gradual_value. rewrite truediv_nonzero by (cbn; lia). cbn.
    replace (0 / 20) with 0 by lra. rewrite exp_0.
    replace (0 + (10 - 0) * (1 - 1)) with 0 by lra. reflexivity. }
  set (s1 := set_bias_level (update_target_bias fresh 0 10) 0) in *.
  assert (H2 : apply_bias s1 20 10 "gradual" = Ok (10, set_bias_level s1 10)).
  { rewrite apply_bias_pending by (cbn; lia || reflexivity).
    apply calculate_arrived; [cbn; lia | left; reflexivity]. }
  set (s2 := set_bias_level s1 10) in *.
  assert (H3 : apply_bias s2 20 5 "linear"
               = Ok (10, set_bias_level (update_target_bias s2 20 5) 10)).
  { rewrite apply_bias_changed by (cbn; lra).
    rewrite calculate_linear_before by (cbn; lia).
    unfold linear_value. rewrite truediv_nonzero by (cbn; lia). cbn.
    replace ((5 - 10) / 20 * 0 + 10) with 10 by lra. reflexivity. }
  set (s3 := set_bias_level (update_target_bias s2 20 5) 10) in *.
  exists s1, s2, s3, (set_bias_level s3 5).
  repeat split; try assumption.
  rewrite apply_bias_pending by (cbn; lia || reflexivity).
  apply calculate_arrived; [cbn; lia | right; reflexivity].
Qed.

(** ** The divisor of the ['linear'] slope *)

Section Frame.

(** [calculate_bias] assigns [bias_level] only. *)
Lemma calculate_bias_frame (self self' : BiasAdjustment) (i : Z) (ty : string) (v : R) :
  calculate_bias self i ty = Ok (v, self') -> self' = set_bias_level self v.
Proof.
  unfold calculate_bias.
  match goal with |- Py.bind ?m _ = _ -> _ => destruct m as [w | e] end; cbn.
  - intros H. injection H as <- <-. reflexivity.
  - discriminate.
Qed.

(** After [apply_bias] the indices are those [validate_bias_input] left. *)
Lemma apply_bias_frame (self self' : BiasAdjustment) (i : Z) (b : R) (ty : string) (v : R) :
  apply_bias self i b ty = Ok (v, self') ->
  let self1 := snd (validate_bias_input self i b) in
  response_time self' = response_time self1 /\
  target_index self' = target_index self1 /\
  last_update_index self' = last_update_index self1.
Proof.
  unfold apply_bias. destruct (validate_bias_input self i b) as [is_changed self1].
  cbn [snd]. destruct (is_changed || (i <=? target_index self1)%Z).
  - intros H. apply calculate_bias_frame in H. subst self'. cbn. auto.
  - intros H. injection H as _ <-. auto.
Qed.

(** Either no target was ever set and both indices are still 0, or the
    window is [response_time] long. *)
Lemma reachable_window (rt : Z) (bias_init : R) (self : BiasAdjustment) :
  reachable rt bias_init self ->
  response_time self = rt /\
  ((target_index self = 0 /\ last_update_index self = 0)%Z \/
   target_index self = (last_update_index self + rt)%Z).
Proof.
  induction 1 as [| self i b _ [IHrt IH] | self i b _ [IHrt IH]
                  | self i ty v self' _ [IHrt IH] Hc
                  | self i b ty v self' _ [IHrt IH] Ha].
  - cbn. auto.
  - cbn. split; [exact IHrt | right; lia].
  - unfold validate_bias_input. destruct (Py.ne (target_bias self) b); cbn.
    + split; [exact IHrt | right; lia].
    + split; assumption.
  - apply calculate_bias_frame in Hc. subst self'. cbn. split; assumption.
  - apply apply_bias_frame in Ha. destruct Ha as (Hr & Ht & Hl).
    rewrite Hr, Ht, Hl. clear Hr Ht Hl.
    unfold validate_bias_input. destruct (Py.ne (target_bias self) b); cbn.
    + split; [exact IHrt | right; lia].
    + split; assumption.
Qed.

Lemma calculate_linear_raises_iff (self : BiasAdjustment) (i : Z) :
  calculate_bias self i "linear" = Raise ZeroDivisionError <->
  (i < target_index self)%Z /\ target_index self = last_update_index self.
Proof.
  unfold calculate_bias. cbn [String.eqb Ascii.eqb Bool.eqb].
  destruct (Z.ltb_spec i (target_index self)) as [Hlt | Hge].
  - unfold linear_value, truediv.
    destruct (Z.eqb_spec (target_index self - last_update_index self) 0) as [Hz | Hnz]; cbn.
    + split; [intros _; split; lia | reflexivity].
    + split; [discriminate | intros [_ He]; lia].
  - cbn. split; [discriminate | intros [Hlt _]; lia].
Qed.

End Frame.

(** A new object has both indices 0, with any [response_time]: at a
    negative index the ['linear'] branch is entered and its divisor is 0. *)
Lemma linear_fresh_divisor_zero :
  (0 < response_time fresh)%Z /\
  reachable 20 0 fresh /\
  (-1 < target_index fresh)%Z /\
  (target_index fresh - last_update_index fresh)%Z = 0%Z /\
  calculate_bias fresh (-1) "linear" = Raise ZeroDivisionError /\
  ~ (forall (rt : Z) (bias_init : R) (self : BiasAdjustment) (i : Z),
        (0 < rt)%Z -> reachable rt bias_init self ->
        (i < target_index self)%Z ->
        (target_index self - last_update_index self)%Z <> 0%Z).
Proof.
  repeat split; try (cbn; lia).
  - apply reach_init.
  - intros Hall. apply (Hall 20%Z 0 fresh (-1)%Z); [lia | apply reach_init | cbn; lia | reflexivity].
Qed.

(** C8, amended: the ['linear'] slope raises [ZeroDivisionError] exactly
    when the branch is entered with [target_index = last_update_index];
    in a reachable state that equality holds only when [response_time] is
    0 or both indices are still 0 (no target set yet); so for an object
    built with [response_time > 0] the divisor is non-zero, and the
    branch returns a value, at every index [>= 0] at which it is
    entered. *)
Theorem linear_divisor_nonzero (rt : Z) (bias_init : R) (self : BiasAdjustment) (i : Z) :
  reachable rt bias_init self ->
  (calculate_bias self i "linear" = Raise ZeroDivisionError <->
   (i < target_index self)%Z /\ target_index self = last_update_index self) /\
  (target_index self = last_update_index self ->
   rt = 0%Z \/ (target_index self = 0 /\ last_update_index self = 0)%Z) /\
  ((0 < rt)%Z -> (0 <= i)%Z -> (i < target_index self)%Z ->
   (target_index self - last_update_index self)%Z <> 0%Z /\
   exists v, calculate_bias self i "linear" = Ok (v, set_bias_level self v)).
Proof.
  intros Hreach. destruct (reachable_window rt bias_init self Hreach) as [Hrt Hwin].
  split; [apply calculate_linear_raises_iff |]. split.
  - intros He. destruct Hwin as [Hz | Hw]; [right; exact Hz | left; lia].
  - intros Hpos Hi Hlt.
    assert (Hd : (target_index self - last_update_index self)%Z <> 0%Z)
      by (destruct Hwin as [[Hz _] | Hw]; lia).
    split; [exact Hd |].
    rewrite (calculate_linear_before self i Hlt). unfold linear_value.
    rewrite (truediv_nonzero _ _ Hd). cbn. eexists. reflexivity.
Qed.

Lemma linear_divisor_nonzero_witness :
  let self := update_target_bias fresh 3 10 in
  (calculate_bias self 4 "linear" = Raise ZeroDivisionError <->
   (4 < target_index self)%Z /\ target_index self = last_update_index self) /\
  (target_index self = last_update_index self ->
   20%Z = 0%Z \/ (target_index self = 0 /\ last_update_index self = 0)%Z) /\
  ((0 < 20)%Z -> (0 <= 4)%Z -> (4 < target_index self)%Z ->
   (target_index self - last_update_index self)%Z <> 0%Z /\
   exists v, calculate_bias self 4 "linear" = Ok (v, set_bias_level self v)).
Proof.
  apply (linear_divisor_nonzero 20 0 (update_target_bias fresh 3 10) 4).
  apply reach_update. apply reach_init.
Defined.

(** ** The ['gradual'] approach *)

Section Gradual.

(** The factor [1 - exp (-time_elapsed / response_time)] lies in [0, 1)
    inside the window. *)
Lemma change_bounds (e rt : Z) :
  (0 <= e)%Z -> (0 < rt)%Z ->
  0 <= 1 - exp (IZR (- e) / IZR rt) < 1.
Proof.
  intros He Hrt.
  assert (Hq : IZR (- e) / IZR rt <= 0).
  { apply IZR_lt in Hrt. assert (Hn : IZR (- e) <= 0) by (apply IZR_le; lia).
    unfold Rdiv. pose proof (Rinv_0_lt_compat _ Hrt) as Hinv.
    rewrite <- (Rmult_0_l (/ IZR rt)). apply Rmult_le_compat_r; lra. }
  pose proof (exp_pos (IZR (- e) / IZR rt)) as Hpos.
  destruct Hq as [Hneg | Hzero].
  - pose proof (exp_increasing _ _ Hneg) as Hinc. rewrite exp_0 in Hinc. lra.
  - rewrite Hzero, exp_0. lra.
Qed.

(** One step towards a target that is not below [bias_level]. *)
Lemma step_between (b T c : R) :
  b <= T -> 0 <= c < 1 -> b <= b + (T - b) * c <= T.
Proof. intros Hb [Hc0 Hc1]. nra. Qed.

Lemma nondecreasing_cons (b v : R) (vs : list R) :
  b <= v -> nondecreasing (v :: vs) -> nondecreasing (b :: v :: vs).
Proof. intros Hb Hvs. split; assumption. Qed.

Variables (rt lo : Z) (T : R).

(** Inside the window every ['gradual'] call returns, and the values
    climb without passing the target.  The indices may come in any
    order. *)
Lemma calculate_all_gradual_climbs (indices : list Z) :
  forall self : BiasAdjustment,
    response_time self = rt -> last_update_index self = lo ->
    target_index self = (lo + rt)%Z -> target_bias self = T ->
    bias_level self <= T ->
    Forall (fun i => (lo <= i < lo + rt)%Z) indices ->
    exists (vs : list R) (self' : BiasAdjustment),
      calculate_all self "gradual" indices = Ok (vs, self') /\
      length vs = length indices /\
      nondecreasing (bias_level self :: vs) /\
      Forall (fun v => v <= T) vs /\
      target_bias self' = T.
Proof.
  induction indices as [| i rest IH]; intros self Hrt Hlo Hhi HT Hb Hin.
  - exists [], self. cbn. auto.
  - inversion Hin as [| ? ? Hi Hrest]; subst.
    assert (Hpos : (0 < response_time self)%Z) by lia.
    assert (Hlt : (i < target_index self)%Z) by lia.
    assert (Hnz : response_time self <> 0%Z) by lia.
    pose proof (change_bounds (i - last_update_index self) (response_time self)
                  ltac:(lia) Hpos) as Hc.
    pose proof (step_between (bias_level self) (target_bias self) _ Hb Hc) as [Hup Hle].
    set (v := bias_level self + (target_bias self - bias_level self)
              * (1 - exp (IZR (- (i - last_update_index self)) / IZR (response_time self))))
      in *.
    destruct (IH (set_bias_level self v)) as (vs & self' & Hrun & Hlen & Hmono & Hall & HT');
      try reflexivity; try assumption.
    exists (v :: vs), self'. cbn [calculate_all].
    rewrite (calculate_gradual_before self i Hlt). unfold gradual_value.
    rewrite (truediv_nonzero _ _ Hnz). cbn [Py.bind snd fst]. fold v.
    rewrite Hrun. cbn [Py.bind snd fst length].
    repeat split; auto.
Qed.

End Gradual.

(** C9: when the target set by an update is above [bias_level] and the
    target is not changed afterwards, successive ['gradual'] calls at
    strictly increasing indices from [last_update_index] on and before
    [target_index] all return, and the returned values form a
    non-decreasing sequence, starting no lower than the [bias_level] at
    update time, that never exceeds the target. *)
Theorem gradual_monotone_approach (before : BiasAdjustment) (index : Z) (T : R)
    (indices : list Z) :
  bias_level before < T ->
  let self := update_target_bias before index T in
  increasing indices ->
  Forall (fun i => (last_update_index self <= i < target_index self)%Z) indices ->
  exists (vs : list R) (self' : BiasAdjustment),
    calculate_all self "gradual" indices = Ok (vs, self') /\
    length vs = length indices /\
    nondecreasing (bias_level before :: vs) /\
    Forall (fun v => v <= T) vs /\
    target_bias self' = T.
Proof.
  intros Hb self _ Hin.
  apply (calculate_all_gradual_climbs (response_time before) index T indices self);
    try reflexivity; [cbn; lra | exact Hin].
Qed.

Lemma gradual_monotone_approach_witness :
  let self := update_target_bias fresh 0 10 in
  exists (vs : list R) (self' : BiasAdjustment),
    calculate_all self "gradual" [1; 5; 19]%Z = Ok (vs, self') /\
    length vs = 3%nat /\
    nondecreasing (bias_level fresh :: vs) /\
    Forall (fun v => v <= 10) vs /\
    target_bias self' = 10.
Proof.
  apply (gradual_monotone_approach fresh 0 10 [1; 5; 19]%Z).
  - cbn. lra.
  - cbn. lia.
  - repeat constructor; cbn; lia.
Defined.


(** ** When the methods raise *)

Section Raising.

(** Outside the two divisions nothing can fail. *)
Lemma calculate_bias_returns (self : BiasAdjustment) (i : Z) (ty : string) :
  ((i < target_index self)%Z ->
   response_time self <> 0%Z /\ target_index self <> last_update_index self) ->
  exists v, calculate_bias self i ty = Ok (v, set_bias_level self v).
Proof.
  intros Hsafe. unfold calculate_bias.
  destruct (ty =? "gradual")%string; [| destruct (ty =? "linear")%string].
  - destruct (Z.ltb_spec i (target_index self)) as [Hlt | Hge].
    + destruct (Hsafe Hlt) as [Hrt _]. unfold gradual_value.
      rewrite (truediv_nonzero _ _ Hrt). cbn. eexists. reflexivity.
    + cbn. eexists. reflexivity.
  - destruct (Z.ltb_spec i (target_index self)) as [Hlt | Hge].
    + destruct (Hsafe Hlt) as [_ Hw]. unfold linear_value.
      rewrite truediv_nonzero by lia. cbn. eexists. reflexivity.
    + cbn. eexists. reflexivity.
  - cbn. eexists. reflexivity.
Qed.

Lemma apply_bias_returns (self : BiasAdjustment) (i : Z) (b : R) (ty : string) :
  (let self1 := snd (validate_bias_input self i b) in
   (i < target_index self1)%Z ->
   response_time self1 <> 0%Z /\ target_index self1 <> last_update_index self1) ->
  exists v self', apply_bias self i b ty = Ok (v, self').
Proof.
  intros Hsafe. unfold apply_bias.
  destruct (validate_bias_input self i b) as [is_changed self1]. cbn in Hsafe.
  destruct (is_changed || (i <=? target_index self1)%Z).
  - destruct (calculate_bias_returns self1 i ty Hsafe) as [v Hv].
    exists v, (set_bias_level self1 v). exact Hv.
  - eexists. eexists. reflexivity.
Qed.

End Raising.

(** X1: [calculate_bias] raises [ZeroDivisionError] exactly when it is
    called before [target_index] and the divisor of the chosen branch is
    0: [response_time] for ['gradual'],
    [target_index - last_update_index] for ['linear']. *)
Theorem calculate_bias_zero_division_iff (self : BiasAdjustment) (i : Z) (ty : string) :
  calculate_bias self i ty = Raise ZeroDivisionError <->
  (i < target_index self)%Z /\
  ((ty = "gradual" /\ response_time self = 0%Z) \/
   (ty = "linear" /\ target_index self = last_update_index self)).
Proof.
  unfold calculate_bias.
  destruct (String.eqb_spec ty "gradual") as [-> | Hg];
    [| destruct (String.eqb_spec ty "linear") as [-> | Hl]].
  - destruct (Z.ltb_spec i (target_index self)) as [Hlt | Hge].
    + unfold gradual_value, truediv.
      destruct (Z.eqb_spec (response_time self) 0) as [Hz | Hnz]; cbn.
      * split; [intros _; split; [exact Hlt | left; auto] | reflexivity].
      * split; [discriminate |].
        intros [_ [[_ Hz] | [Hty _]]]; [contradiction | discriminate Hty].
    + cbn. split; [discriminate | intros [Hlt _]; lia].
  - destruct (Z.ltb_spec i (target_index self)) as [Hlt | Hge].
    + unfold linear_value, truediv.
      destruct (Z.eqb_spec (target_index self - last_update_index self) 0) as [Hz | Hnz]; cbn.
      * split; [intros _; split; [exact Hlt | right; split; [reflexivity | lia]] | reflexivity].
      * split; [discriminate |].
        intros [_ [[Hty _] | [_ He]]]; [discriminate Hty | lia].
    + cbn. split; [discriminate | intros [Hlt _]; lia].
  - cbn. split; [discriminate |].
    intros [_ [[Hty _] | [Hty _]]]; contradiction.
Qed.

(** X2: An object built with [response_time > 0] and used at indices
    [>= 0] never divides by zero: in no reachable state does
    [calculate_bias] or [apply_bias] raise [ZeroDivisionError], whatever
    [bias_type] and [bias_input] are. *)
Theorem nonnegative_index_no_zero_division (rt : Z) (bias_init : R)
    (self : BiasAdjustment) (i : Z) (b : R) (ty : string) :
  (0 < rt)%Z -> reachable rt bias_init self -> (0 <= i)%Z ->
  calculate_bias self i ty <> Raise ZeroDivisionError /\
  apply_bias self i b ty <> Raise ZeroDivisionError.
Proof.
  intros Hpos Hreach Hi. split.
  - destruct (reachable_window rt bias_init self Hreach) as [Hrt Hwin].
    destruct (calculate_bias_returns self i ty) as [v Hv];
      [intros Hlt; destruct Hwin as [[Hz _] | Hw]; lia |].
    rewrite Hv. discriminate.
  - destruct (apply_bias_returns self i b ty) as (v & self' & Hv).
    + cbn zeta. intros Hlt.
      pose proof (reach_validate rt bias_init self i b Hreach) as Hreach1.
      destruct (reachable_window rt bias_init _ Hreach1) as [Hrt Hwin].
      destruct Hwin as [[Hz _] | Hw]; lia.
    + rewrite Hv. discriminate.
Qed.

Lemma nonnegative_index_no_zero_division_witness :
  let self := update_target_bias (init 20 3) 3 10 in
  calculate_bias self 4 "gradual" <> Raise ZeroDivisionError /\
  apply_bias self 4 7 "gradual" <> Raise ZeroDivisionError.
Proof.
  apply (nonnegative_index_no_zero_division 20 3 (update_target_bias (init 20 3) 3 10)
           4 7 "gradual").
  - lia.
  - apply reach_update. apply reach_init.
  - lia.
Defined.

(** ** What [apply_bias] leaves behind *)

(** X3: When [apply_bias] returns, [bias_level] holds the returned value and
    [target_bias] holds [bias_input]; [response_time] is never written.
    The window and [last_target_bias] are rewritten when the target
    differed and are untouched otherwise. *)
Theorem apply_bias_post (self self' : BiasAdjustment) (index : Z) (bias_input : R)
    (ty : string) (v : R) :
  apply_bias self index bias_input ty = Ok (v, self') ->
  bias_level self' = v /\
  target_bias self' = bias_input /\
  response_time self' = response_time self /\
  (target_bias self = bias_input ->
   last_target_bias self' = last_target_bias self /\
   last_update_index self' = last_update_index self /\
   target_index self' = target_index self) /\
  (target_bias self <> bias_input ->
   last_target_bias self' = target_bias self /\
   last_update_index self' = index /\
   target_index self' = (index + response_time self)%Z).
Proof.
  unfold apply_bias, validate_bias_input.
  destruct (Req_dec_T (target_bias self) bias_input) as [He | Hne].
  - rewrite (ne_false _ _ He). cbn [orb].
    destruct (index <=? target_index self)%Z; intros H.
    + apply calculate_bias_frame in H. subst self'. cbn.
      repeat split; auto; contradiction.
    + injection H as <- <-. repeat split; auto; contradiction.
  - rewrite (ne_true _ _ Hne). cbn [orb]. intros H.
    apply calculate_bias_frame in H. subst self'. cbn.
    repeat split; auto; contradiction.
Qed.

Lemma apply_bias_post_witness :
  let self := init 20 3 in
  let self' := set_bias_level (update_target_bias self 4 10) 0 in
  bias_level self' = 0 /\
  target_bias self' = 10 /\
  response_time self' = response_time self /\
  (target_bias self = 10 ->
   last_target_bias self' = last_target_bias self /\
   last_update_index self' = last_update_index self /\
   target_index self' = target_index self) /\
  (target_bias self <> 10 ->
   last_target_bias self' = target_bias self /\
   last_update_index self' = 4%Z /\
   target_index self' = (4 + response_time self)%Z).
Proof.
  apply (apply_bias_post (init 20 3) (set_bias_level (update_target_bias (init 20 3) 4 10) 0)
           4 10 "linear" 0).
  rewrite apply_bias_changed by (cbn; lra).
  rewrite calculate_linear_before by (cbn; lia).
  unfold linear_value. rewrite truediv_nonzero by (cbn; lia). cbn.
  replace ((10 - 0) / 20 * 0 + 0) with 0 by lra. reflexivity.
Defined.

(** ** The first value after a target change *)

Section Retarget.

Variables (self : BiasAdjustment) (index : Z) (bias_input : R).

Let restarted := update_target_bias self index bias_input.

Lemma gradual_value_at_update :
  response_time self <> 0%Z ->
  gradual_value restarted index = Ok (bias_level self).
Proof.
  intros Hrt. unfold gradual_value. cbn [restarted update_target_bias last_update_index
    response_time bias_level target_bias].
  rewrite (truediv_nonzero _ _ Hrt). cbn [Py.bind]. rewrite Z.sub_diag. cbn [Z.opp].
  unfold Rdiv. rewrite Rmult_0_l, exp_0. f_equal. ring.
Qed.

Lemma linear_value_at_update :
  response_time self <> 0%Z ->
  linear_value restarted index = Ok (target_bias self).
Proof.
  intros Hrt. unfold linear_value. cbn [restarted update_target_bias last_update_index
    target_index last_target_bias target_bias].
  rewrite truediv_nonzero by lia. cbn [Py.bind]. rewrite Z.sub_diag. f_equal. ring.
Qed.

End Retarget.

(** X4: With [response_time > 0], an [apply_bias] call that changes the target
    under ['gradual'] returns the [bias_level] stored before the call:
    [time_elapsed] is 0, so the first step does not move. *)
Theorem apply_bias_gradual_holds_at_update (self : BiasAdjustment) (index : Z)
    (bias_input : R) :
  target_bias self <> bias_input ->
  (0 < response_time self)%Z ->
  apply_bias self index bias_input "gradual"
  = Ok (bias_level self, update_target_bias self index bias_input).
Proof.
  intros Hne Hrt. rewrite (apply_bias_changed self index bias_input "gradual" Hne).
  rewrite calculate_gradual_before by (cbn; lia).
  rewrite gradual_value_at_update by lia. cbn [Py.bind].
  rewrite <- (set_bias_level_same (update_target_bias self index bias_input)) at 2.
  reflexivity.
Qed.

Lemma apply_bias_gradual_holds_at_update_witness :
  apply_bias (init 20 3) 4 10 "gradual"
  = Ok (bias_level (init 20 3), update_target_bias (init 20 3) 4 10).
Proof.
  apply (apply_bias_gradual_holds_at_update (init 20 3) 4 10); cbn; [lra | lia].
Defined.

(** X5: With [response_time > 0], an [apply_bias] call that changes the
    target under ['linear'] returns the target it replaces and stores it
    in [bias_level], whatever [bias_level] was: a ramp interrupted on its
    way jumps to its old end point.  The other attributes are those of
    the update. *)
Theorem apply_bias_linear_restarts_at_old_target (self : BiasAdjustment) (index : Z)
    (bias_input : R) :
  target_bias self <> bias_input ->
  (0 < response_time self)%Z ->
  exists self',
    apply_bias self index bias_input "linear" = Ok (target_bias self, self') /\
    bias_level self' = target_bias self /\
    target_bias self' = bias_input /\
    last_target_bias self' = target_bias self /\
    last_update_index self' = index /\
    target_index self' = (index + response_time self)%Z /\
    response_time self' = response_time self.
Proof.
  intros Hne Hrt.
  exists (set_bias_level (update_target_bias self index bias_input) (target_bias self)).
  split; [| cbn; repeat split].
  rewrite (apply_bias_changed self index bias_input "linear" Hne).
  rewrite calculate_linear_before by (cbn; lia).
  rewrite linear_value_at_update by lia. reflexivity.
Qed.

Lemma apply_bias_linear_restarts_at_old_target_witness :
  let self := set_bias_level (update_target_bias (init 20 3) 0 6) 4 in
  exists self',
    apply_bias self 5 10 "linear" = Ok (target_bias self, self') /\
    bias_level self' = target_bias self /\
    target_bias self' = 10 /\
    last_target_bias self' = target_bias self /\
    last_update_index self' = 5%Z /\
    target_index self' = (5 + response_time self)%Z /\
    response_time self' = response_time self.
Proof.
  apply (apply_bias_linear_restarts_at_old_target
           (set_bias_level (update_target_bias (init 20 3) 0 6) 4) 5 10); cbn; [lra | lia].
Defined.

(** X6: With [response_time <= 0] the window is empty: an [apply_bias]
    call that changes the target returns the new target at once under
    ['gradual'] and ['linear'] and stores it in [bias_level]; no division
    is evaluated, also for [response_time = 0]. *)
Theorem apply_bias_empty_window_snaps (self : BiasAdjustment) (index : Z)
    (bias_input : R) (ty : string) :
  target_bias self <> bias_input ->
  (response_time self <= 0)%Z ->
  ty = "gradual" \/ ty = "linear" ->
  exists self',
    apply_bias self index bias_input ty = Ok (bias_input, self') /\
    bias_level self' = bias_input /\
    target_bias self' = bias_input /\
    last_target_bias self' = target_bias self /\
    last_update_index self' = index /\
    target_index self' = (index + response_time self)%Z /\
    response_time self' = response_time self.
Proof.
  intros Hne Hrt Hty.
  exists (set_bias_level (update_target_bias self index bias_input) bias_input).
  split; [| cbn; repeat split].
  rewrite (apply_bias_changed self index bias_input ty Hne).
  apply (calculate_arrived (update_target_bias self index bias_input)); [cbn; lia | exact Hty].
Qed.

Lemma apply_bias_empty_window_snaps_witness :
  exists self',
    apply_bias (init 0 3) 4 10 "linear" = Ok (10, self') /\
    bias_level self' = 10 /\
    target_bias self' = 10 /\
    last_target_bias self' = target_bias (init 0 3) /\
    last_update_index self' = 4%Z /\
    target_index self' = (4 + response_time (init 0 3))%Z /\
    response_time self' = response_time (init 0 3).
Proof.
  apply (apply_bias_empty_window_snaps (init 0 3) 4 10 "linear");
    cbn; [lra | lia | right; reflexivity].
Defined.

(** ** The ['linear'] ramp *)

Section Ramp.

Variables (self : BiasAdjustment) (index : Z) (T : R) (k : Z).
Hypothesis Hrt : (0 < response_time self)%Z.
Hypothesis Hk : (0 <= k <= response_time self)%Z.

Let restarted := update_target_bias self index T.
Let P := target_bias self.

Lemma linear_ramp_value :
  calculate_bias restarted (index + k) "linear"
  = Ok (P + (T - P) * IZR k / IZR (response_time self),
        set_bias_level restarted (P + (T - P) * IZR k / IZR (response_time self))).
Proof.
  assert (Hr : IZR (response_time self) <> 0) by (apply not_0_IZR; lia).
  destruct (Z.eq_dec k (response_time self)) as [He | Hne].
  - rewrite (calculate_arrived restarted (index + k) "linear")
      by (cbn; lia || (right; reflexivity)).
    assert (Hv : target_bias restarted = P + (T - P) * IZR k / IZR (response_time self)).
    { cbn. rewrite He. unfold P. field. exact Hr. }
    rewrite <- Hv. reflexivity.
  - rewrite (calculate_linear_before restarted (index + k)) by (cbn; lia).
    unfold linear_value. rewrite truediv_nonzero by (cbn; lia).
    cbn [Py.bind restarted update_target_bias last_update_index target_index
         last_target_bias target_bias].
    replace (index + response_time self - index)%Z with (response_time self) by lia.
    replace (index + k - index)%Z with k by lia.
    assert (Hv : (T - target_bias self) / IZR (response_time self) * IZR k + target_bias self
                 = P + (T - P) * IZR k / IZR (response_time self)).
    { unfold P. field. exact Hr. }
    rewrite Hv. reflexivity.
Qed.

Lemma ramp_fraction : 0 <= IZR k / IZR (response_time self) <= 1.
Proof.
  assert (H0 : 0 < IZR (response_time self)) by (apply IZR_lt; exact Hrt).
  assert (H1 : 0 <= IZR k) by (apply IZR_le; lia).
  assert (H2 : IZR k <= IZR (response_time self)) by (apply IZR_le; lia).
  pose proof (Rinv_0_lt_compat _ H0) as Hinv. unfold Rdiv. split.
  - apply Rmult_le_pos; lra.
  - rewrite <- (Rinv_r (IZR (response_time self))) by lra.
    apply Rmult_le_compat_r; lra.
Qed.

End Ramp.

(** X7: After a target [T] replaces a target [P] at [index], with
    [response_time > 0], [calculate_bias] with ['linear'] at
    [index + k], for [0 <= k <= response_time], returns
    [P + (T - P) * k / response_time]: the ramp starts at [P], meets the
    arrival value [T] at [k = response_time] without a jump, and stays
    between [P] and [T]. *)
Theorem linear_ramp (self : BiasAdjustment) (index : Z) (T : R) (k : Z) :
  (0 < response_time self)%Z ->
  (0 <= k <= response_time self)%Z ->
  let restarted := update_target_bias self index T in
  let P := target_bias self in
  let v := P + (T - P) * IZR k / IZR (response_time self) in
  calculate_bias restarted (index + k) "linear" = Ok (v, set_bias_level restarted v) /\
  Rmin P T <= v <= Rmax P T /\
  (k = 0%Z -> v = P) /\
  (k = response_time self -> v = T).
Proof.
  intros Hrt Hk restarted P v.
  assert (Hr : IZR (response_time self) <> 0) by (apply not_0_IZR; lia).
  split; [apply linear_ramp_value; assumption |].
  pose proof (ramp_fraction self k Hrt Hk) as [Hf0 Hf1].
  assert (Hv : v = P + (T - P) * (IZR k / IZR (response_time self)))
    by (unfold v; field; exact Hr).
  split; [| split].
  - rewrite Hv. destruct (Rle_dec P T) as [Hle | Hgt].
    + rewrite Rmin_left, Rmax_right by exact Hle. split; nra.
    + rewrite Rmin_right, Rmax_left by lra. split; nra.
  - intros ->. unfold v. field. exact Hr.
  - intros ->. unfold v. field. exact Hr.
Qed.

Lemma linear_ramp_witness :
  let restarted := update_target_bias (init 20 3) 4 10 in
  let P := target_bias (init 20 3) in
  let v := P + (10 - P) * IZR 5 / IZR (response_time (init 20 3)) in
  calculate_bias restarted (4 + 5) "linear" = Ok (v, set_bias_level restarted v) /\
  Rmin P 10 <= v <= Rmax P 10 /\
  (5%Z = 0%Z -> v = P) /\
  (5%Z = response_time (init 20 3) -> v = 10).
Proof.
  apply (linear_ramp (init 20 3) 4 10 5); cbn; lia.
Defined.

(** X8: With an even [response_time = 2 * m > 0], the ['linear'] value half
    way through the window, at [index + m], is the mean of the replaced
    target and the new one. *)
Theorem linear_midpoint (self : BiasAdjustment) (index : Z) (T : R) (m : Z) :
  (0 < m)%Z ->
  response_time self = (2 * m)%Z ->
  let restarted := update_target_bias self index T in
  let mid := (target_bias self + T) / 2 in
  calculate_bias restarted (index + m) "linear" = Ok (mid, set_bias_level restarted mid).
Proof.
  intros Hm Hrt restarted mid.
  assert (Hv : target_bias self + (T - target_bias self) * IZR m / IZR (response_time self)
               = mid).
  { unfold mid. rewrite Hrt, mult_IZR.
    assert (Hm' : IZR m <> 0) by (apply not_0_IZR; lia). field. exact Hm'. }
  rewrite <- Hv. apply linear_ramp_value; lia.
Qed.

Lemma linear_midpoint_witness :
  let restarted := update_target_bias (init 20 3) 4 10 in
  let mid := (target_bias (init 20 3) + 10) / 2 in
  calculate_bias restarted (4 + 10) "linear" = Ok (mid, set_bias_level restarted mid).
Proof.
  apply (linear_midpoint (init 20 3) 4 10 10); [lia | reflexivity].
Defined.

(** ** The ['gradual'] recurrence in closed form *)

Section Gap.

(** One ['gradual'] step multiplies the distance to the target by
    [exp (-time_elapsed / response_time)]. *)
Lemma gradual_step_gap (self : BiasAdjustment) (i : Z) :
  response_time self <> 0%Z ->
  (i < target_index self)%Z ->
  exists v,
    calculate_bias self i "gradual" = Ok (v, set_bias_level self v) /\
    target_bias self - v
    = (target_bias self - bias_level self)
      * exp (- (IZR (i - last_update_index self) / IZR (response_time self))).
Proof.
  intros Hrt Hlt. rewrite (calculate_gradual_before self i Hlt). unfold gradual_value.
  rewrite (truediv_nonzero _ _ Hrt). cbn [Py.bind]. eexists. split; [reflexivity |].
  replace (IZR (- (i - last_update_index self)) / IZR (response_time self))
    with (- (IZR (i - last_update_index self) / IZR (response_time self)))
    by (rewrite opp_IZR; unfold Rdiv; ring).
  ring.
Qed.

Variables (rt lo hi : Z) (T : R).
Hypothesis Hrt : rt <> 0%Z.

Lemma calculate_all_gradual_gap (indices : list Z) :
  forall self : BiasAdjustment,
    response_time self = rt -> last_update_index self = lo ->
    target_index self = hi -> target_bias self = T ->
    Forall (fun i => (i < hi)%Z) indices ->
    exists (vs : list R) (self' : BiasAdjustment),
      calculate_all self "gradual" indices = Ok (vs, self') /\
      length vs = length indices /\
      self' = set_bias_level self (bias_level self') /\
      T - bias_level self'
      = (T - bias_level self) * exp (- (IZR (total_elapsed self indices) / IZR rt)).
Proof.
  assert (Hr : IZR rt <> 0) by (apply not_0_IZR; exact Hrt).
  induction indices as [| i rest IH]; intros self Hself Hlo Hhi HT Hin.
  - exists [], self. cbn. rewrite set_bias_level_same.
    repeat split. unfold Rdiv. rewrite Rmult_0_l, Ropp_0, exp_0. ring.
  - apply Forall_cons_iff in Hin. destruct Hin as [Hi Hrest].
    destruct (gradual_step_gap self i) as (v & Hcalc & Hgap); [lia | lia |].
    destruct (IH (set_bias_level self v)) as (vs & self' & Hrun & Hlen & Hself' & Hgap');
      try assumption.
    exists (v :: vs), self'. cbn [calculate_all]. rewrite Hcalc. cbn [Py.bind snd fst].
    rewrite Hrun. cbn [Py.bind snd fst length].
    split; [reflexivity |]. split; [congruence |]. split; [exact Hself' |].
    rewrite Hgap'. cbn [bias_level set_bias_level]. rewrite <- HT, Hgap.
    rewrite Rmult_assoc, <- exp_plus. f_equal. f_equal.
    unfold total_elapsed. cbn [fold_right last_update_index set_bias_level].
    rewrite Hself, plus_IZR. field. exact Hr.
Qed.

End Gap.

(** X9: With [response_time] not 0, any run of ['gradual'] calls before
    [target_index] returns, and the distance to the target after the run
    is the distance before it times
    [exp (-(sum of the calls' time_elapsed) / response_time)]: every call
    charges the whole time since the update again, so the result depends
    on how often the object was asked, not only on the last index. *)
Theorem gradual_gap_closed_form (self : BiasAdjustment) (indices : list Z) :
  response_time self <> 0%Z ->
  Forall (fun i => (i < target_index self)%Z) indices ->
  exists (vs : list R) (self' : BiasAdjustment),
    calculate_all self "gradual" indices = Ok (vs, self') /\
    length vs = length indices /\
    self' = set_bias_level self (bias_level self') /\
    target_bias self - bias_level self'
    = (target_bias self - bias_level self)
      * exp (- (IZR (total_elapsed self indices) / IZR (response_time self))).
Proof.
  intros Hrt Hin.
  apply (calculate_all_gradual_gap (response_time self) (last_update_index self)
           (target_index self) (target_bias self) Hrt indices self);
    try reflexivity. exact Hin.
Qed.

Lemma gradual_gap_closed_form_witness :
  let self := update_target_bias fresh 0 10 in
  exists (vs : list R) (self' : BiasAdjustment),
    calculate_all self "gradual" [1; 2; 3]%Z = Ok (vs, self') /\
    length vs = 3%nat /\
    self' = set_bias_level self (bias_level self') /\
    target_bias self - bias_level self'
    = (target_bias self - bias_level self)
      * exp (- (IZR (total_elapsed self [1; 2; 3]%Z) / IZR (response_time self))).
Proof.
  apply (gradual_gap_closed_form (update_target_bias fresh 0 10) [1; 2; 3]%Z).
  - cbn. lia.
  - repeat constructor; cbn; lia.
Defined.

(** X10: A ['gradual'] call at an index before [last_update_index] (the index
    went backwards) moves [bias_level] away from the target: the distance
    grows. *)
Theorem gradual_backwards_moves_away (self : BiasAdjustment) (i : Z) :
  (0 < response_time self)%Z ->
  (i < last_update_index self)%Z ->
  (i < target_index self)%Z ->
  bias_level self <> target_bias self ->
  exists v,
    calculate_bias self i "gradual" = Ok (v, set_bias_level self v) /\
    Rabs (target_bias self - bias_level self) < Rabs (target_bias self - v).
Proof.
  intros Hrt Hback Hlt Hne.
  destruct (gradual_step_gap self i) as (v & Hcalc & Hgap); [lia | exact Hlt |].
  exists v. split; [exact Hcalc |].
  set (q := - (IZR (i - last_update_index self) / IZR (response_time self))) in *.
  assert (Hq : 0 < q).
  { unfold q. apply IZR_lt in Hrt.
    assert (Hn : IZR (i - last_update_index self) < 0) by (apply IZR_lt; lia).
    pose proof (Rinv_0_lt_compat _ Hrt) as Hinv. unfold Rdiv. nra. }
  pose proof (exp_increasing _ _ Hq) as HE. rewrite exp_0 in HE.
  rewrite Hgap, Rabs_mult, (Rabs_right (exp q)) by lra.
  assert (Hpos : 0 < Rabs (target_bias self - bias_level self))
    by (apply Rabs_pos_lt; lra).
  nra.
Qed.

Lemma gradual_backwards_moves_away_witness :
  let self := update_target_bias fresh 5 10 in
  exists v,
    calculate_bias self 2 "gradual" = Ok (v, set_bias_level self v) /\
    Rabs (target_bias self - bias_level self) < Rabs (target_bias self - v).
Proof.
  apply (gradual_backwards_moves_away (update_target_bias fresh 5 10) 2); cbn; try lia; lra.
Defined.

(** ** The ['gradual'] approach from above *)

Section Descent.

Lemma step_between_down (b T c : R) :
  T <= b -> 0 <= c < 1 -> T <= b + (T - b) * c <= b.
Proof. intros Hb [Hc0 Hc1]. nra. Qed.

Variables (rt lo : Z) (T : R).

Lemma calculate_all_gradual_descends (indices : list Z) :
  forall self : BiasAdjustment,
    response_time self = rt -> last_update_index self = lo ->
    target_index self = (lo + rt)%Z -> target_bias self = T ->
    T <= bias_level self ->
    Forall (fun i => (lo <= i < lo + rt)%Z) indices ->
    exists (vs : list R) (self' : BiasAdjustment),
      calculate_all self "gradual" indices = Ok (vs, self') /\
      length vs = length indices /\
      nonincreasing (bias_level self :: vs) /\
      Forall (fun v => T <= v) vs /\
      target_bias self' = T.
Proof.
  induction indices as [| i rest IH]; intros self Hself Hlo Hhi HT Hb Hin.
  - exists [], self. cbn. auto.
  - apply Forall_cons_iff in Hin. destruct Hin as [Hi Hrest].
    assert (Hpos : (0 < response_time self)%Z) by lia.
    assert (Hlt : (i < target_index self)%Z) by lia.
    assert (Hnz : response_time self <> 0%Z) by lia.
    pose proof (change_bounds (i - last_update_index self) (response_time self)
                  ltac:(lia) Hpos) as Hc.
    rewrite <- HT in Hb.
    pose proof (step_between_down (bias_level self) (target_bias self) _ Hb Hc) as [Hdown Hle].
    set (v := bias_level self + (target_bias self - bias_level self)
              * (1 - exp (IZR (- (i - last_update_index self)) / IZR (response_time self))))
      in *.
    destruct (IH (set_bias_level self v)) as (vs & self' & Hrun & Hlen & Hmono & Hall & HT');
      try assumption; [cbn; lra |].
    exists (v :: vs), self'. cbn [calculate_all].
    rewrite (calculate_gradual_before self i Hlt). unfold gradual_value.
    rewrite (truediv_nonzero _ _ Hnz). cbn [Py.bind snd fst]. fold v.
    rewrite Hrun. cbn [Py.bind snd fst length].
    split; [reflexivity |]. split; [congruence |].
    split; [split; [exact Hle | exact Hmono] |].
    split; [constructor; [lra | exact Hall] | exact HT'].
Qed.

End Descent.

(** X11: When the target set by an update is below [bias_level], ['gradual']
    calls at indices from [last_update_index] on and before
    [target_index] all return, and the values form a non-increasing
    sequence, starting no higher than the [bias_level] at update time,
    that never falls below the target. *)
Theorem gradual_monotone_descent (before : BiasAdjustment) (index : Z) (T : R)
    (indices : list Z) :
  T < bias_level before ->
  let self := update_target_bias before index T in
  Forall (fun i => (last_update_index self <= i < target_index self)%Z) indices ->
  exists (vs : list R) (self' : BiasAdjustment),
    calculate_all self "gradual" indices = Ok (vs, self') /\
    length vs = length indices /\
    nonincreasing (bias_level before :: vs) /\
    Forall (fun v => T <= v) vs /\
    target_bias self' = T.
Proof.
  intros Hb self Hin.
  apply (calculate_all_gradual_descends (response_time before) index T indices self);
    try reflexivity; [cbn; lra | exact Hin].
Qed.

Lemma gradual_monotone_descent_witness :
  let self := update_target_bias (init 20 9) 0 2 in
  exists (vs : list R) (self' : BiasAdjustment),
    calculate_all self "gradual" [1; 5; 19]%Z = Ok (vs, self') /\
    length vs = 3%nat /\
    nonincreasing (bias_level (init 20 9) :: vs) /\
    Forall (fun v => 2 <= v) vs /\
    target_bias self' = 2.
Proof.
  apply (gradual_monotone_descent (init 20 9) 0 2 [1; 5; 19]%Z).
  - cbn. lra.
  - repeat constructor; cbn; lia.
Defined.

(** ** Polling with [apply_bias] *)

Section Polling.

Lemma apply_all_app (ty : string) (b : R) (l1 l2 : list Z) :
  forall self : BiasAdjustment,
    apply_all self b ty (l1 ++ l2)%list
    = (r1 <- apply_all self b ty l1 ;;
       r2 <- apply_all (snd r1) b ty l2 ;;
       Ok ((fst r1 ++ fst r2)%list, snd r2)).
Proof.
  induction l1 as [| i rest IH]; intros self.
  - cbn. destruct (apply_all self b ty l2) as [[vs s] | e]; reflexivity.
  - cbn [app apply_all]. destruct (apply_bias self i b ty) as [[v s] | e]; [| reflexivity].
    cbn [Py.bind snd fst]. rewrite IH.
    destruct (apply_all s b ty rest) as [[vs s'] | e]; [| reflexivity].
    cbn [Py.bind snd fst].
    destruct (apply_all s' b ty l2) as [[ws s''] | e]; reflexivity.
Qed.

(** Past [target_index], with the target unchanged, nothing is computed. *)
Lemma apply_all_past_window (ty : string) (self : BiasAdjustment) (indices : list Z) :
  Forall (fun j => (target_index self < j)%Z) indices ->
  apply_all self (target_bias self) ty indices
  = Ok (map (fun _ => bias_level self) indices, self).
Proof.
  induction 1 as [| j rest Hj _ IH]; [reflexivity |].
  cbn [apply_all map]. rewrite apply_bias_settled by (reflexivity || exact Hj).
  cbn [Py.bind snd fst]. rewrite IH. reflexivity.
Qed.

(** At or past [target_index], an object whose [bias_level] is its target
    answers with the target and keeps its state. *)
Lemma apply_bias_at_rest (ty : string) (self : BiasAdjustment) (j : Z) :
  bias_level self = target_bias self ->
  (target_index self <= j)%Z ->
  apply_bias self j (target_bias self) ty = Ok (target_bias self, self).
Proof.
  intros Hrest Hj. destruct (Z.eq_dec j (target_index self)) as [-> | Hne].
  - rewrite apply_bias_pending by (reflexivity || lia).
    destruct (String.eqb_spec ty "gradual") as [Hg | Hg];
      [| destruct (String.eqb_spec ty "linear") as [Hl | Hl]].
    + rewrite calculate_arrived by (lia || (left; exact Hg)).
      rewrite <- Hrest, set_bias_level_same. reflexivity.
    + rewrite calculate_arrived by (lia || (right; exact Hl)).
      rewrite <- Hrest, set_bias_level_same. reflexivity.
    + rewrite calculate_hold by assumption. rewrite Hrest. reflexivity.
  - rewrite apply_bias_settled by (reflexivity || lia). rewrite Hrest. reflexivity.
Qed.

(** With the target unchanged, a non-zero [response_time] and a window
    [response_time] long, polling never raises and writes [bias_level]
    only. *)
Lemma apply_all_in_flight (ty : string) (b : R) (indices : list Z) :
  forall self : BiasAdjustment,
    target_bias self = b ->
    response_time self <> 0%Z ->
    target_index self = (last_update_index self + response_time self)%Z ->
    exists (vs : list R) (self' : BiasAdjustment),
      apply_all self b ty indices = Ok (vs, self') /\
      length vs = length indices /\
      self' = set_bias_level self (bias_level self').
Proof.
  induction indices as [| j rest IH]; intros self HT Hrt Hwin.
  - exists [], self. cbn. rewrite set_bias_level_same. auto.
  - assert (Hstep : exists v, apply_bias self j b ty = Ok (v, set_bias_level self v)).
    { destruct (Z.le_gt_cases j (target_index self)) as [Hle | Hgt].
      - rewrite apply_bias_pending by assumption.
        apply calculate_bias_returns. intros _. split; lia.
      - rewrite apply_bias_settled by (assumption || lia).
        exists (bias_level self). rewrite set_bias_level_same. reflexivity. }
    destruct Hstep as [v Hv].
    destruct (IH (set_bias_level self v)) as (vs & self' & Hrun & Hlen & Hself');
      try assumption.
    exists (v :: vs), self'. cbn [apply_all]. rewrite Hv. cbn [Py.bind snd fst].
    rewrite Hrun. cbn [Py.bind snd fst length].
    split; [reflexivity |]. split; [congruence | exact Hself'].
Qed.

End Polling.

(** X12: Once [bias_level] equals the target, polling with the same target at
    indices at or past [target_index] returns the target every time and
    never changes the object, whatever [bias_type] is. *)
Theorem settled_object_is_stable (self : BiasAdjustment) (ty : string) (indices : list Z) :
  bias_level self = target_bias self ->
  Forall (fun j => (target_index self <= j)%Z) indices ->
  apply_all self (target_bias self) ty indices
  = Ok (map (fun _ => target_bias self) indices, self).
Proof.
  intros Hrest. induction 1 as [| j rest Hj _ IH]; [reflexivity |].
  cbn [apply_all map]. rewrite (apply_bias_at_rest ty self j Hrest Hj).
  cbn [Py.bind snd fst]. rewrite IH. reflexivity.
Qed.

Lemma settled_object_is_stable_witness :
  apply_all fresh (target_bias fresh) "bogus" [0; 7; 7; 30]%Z
  = Ok (map (fun _ => target_bias fresh) [0; 7; 7; 30]%Z, fresh).
Proof.
  apply (settled_object_is_stable fresh "bogus" [0; 7; 7; 30]%Z).
  - reflexivity.
  - repeat constructor; cbn; lia.
Defined.

(** X13: A caller that changes the target with a ['gradual'] [apply_bias] and
    next polls only at indices past [target_index] never sees the target:
    the first call returns the old [bias_level], and every later call
    takes the fast path and returns that same stored value, with the
    object unchanged. *)
Theorem skipped_window_keeps_old_value (self : BiasAdjustment) (index : Z)
    (bias_input : R) (ty : string) (later : list Z) :
  target_bias self <> bias_input ->
  (0 < response_time self)%Z ->
  Forall (fun j => (index + response_time self < j)%Z) later ->
  let restarted := update_target_bias self index bias_input in
  apply_bias self index bias_input "gradual" = Ok (bias_level self, restarted) /\
  apply_all restarted bias_input ty later
  = Ok (map (fun _ => bias_level self) later, restarted).
Proof.
  intros Hne Hrt Hlater restarted. split.
  - rewrite (apply_bias_changed self index bias_input "gradual" Hne).
    rewrite calculate_gradual_before by (cbn; lia).
    rewrite gradual_value_at_update by lia. cbn [Py.bind]. subst restarted.
    rewrite <- (set_bias_level_same (update_target_bias self index bias_input)) at 2.
    reflexivity.
  - apply (apply_all_past_window ty restarted later). exact Hlater.
Qed.

Lemma skipped_window_keeps_old_value_witness :
  let restarted := update_target_bias (init 20 3) 0 10 in
  apply_bias (init 20 3) 0 10 "gradual" = Ok (bias_level (init 20 3), restarted) /\
  apply_all restarted 10 "gradual" [21; 22; 50]%Z
  = Ok (map (fun _ => bias_level (init 20 3)) [21; 22; 50]%Z, restarted).
Proof.
  apply (skipped_window_keeps_old_value (init 20 3) 0 10 "gradual" [21; 22; 50]%Z).
  - cbn. lra.
  - cbn. lia.
  - repeat constructor; cbn; lia.
Defined.

(** X14: A caller that changes the target at [index], polls at any indices
    with the same target, and then polls at [index + response_time],
    gets exactly the target from that last call, under ['gradual'] and
    ['linear']; with [response_time] not 0 no call of the run raises.
    Afterwards [bias_level] is the target. *)
Theorem polling_at_arrival_reaches_target (self : BiasAdjustment) (index : Z)
    (bias_input : R) (ty : string) (between : list Z) :
  target_bias self <> bias_input ->
  response_time self <> 0%Z ->
  ty = "gradual" \/ ty = "linear" ->
  exists (vs : list R) (self' : BiasAdjustment),
    apply_all self bias_input ty (index :: between ++ [(index + response_time self)%Z])%list
    = Ok ((vs ++ [bias_input])%list, self') /\
    length vs = S (length between) /\
    bias_level self' = bias_input /\
    target_bias self' = bias_input /\
    target_index self' = (index + response_time self)%Z.
Proof.
  intros Hne Hrt Hty.
  set (restarted := update_target_bias self index bias_input).
  destruct (calculate_bias_returns restarted index ty) as [v Hv];
    [intros _; cbn; split; lia |].
  destruct (apply_all_in_flight ty bias_input between (set_bias_level restarted v))
    as (vs & s & Hrun & Hlen & Hs); [reflexivity | exact Hrt | cbn; lia |].
  assert (Hlast : apply_bias s (index + response_time self) bias_input ty
                  = Ok (bias_input, set_bias_level s bias_input)).
  { rewrite Hs. rewrite apply_bias_pending by (cbn; lia || reflexivity).
    apply (calculate_arrived (set_bias_level (set_bias_level restarted v) (bias_level s)));
      [cbn; lia | exact Hty]. }
  exists (v :: vs), (set_bias_level s bias_input).
  cbn [apply_all]. rewrite (apply_bias_changed self index bias_input ty Hne).
  fold restarted. rewrite Hv. cbn [Py.bind snd fst].
  rewrite apply_all_app, Hrun. cbn [Py.bind snd fst apply_all].
  rewrite Hlast. cbn [Py.bind snd fst app length].
  split; [reflexivity |]. split; [congruence |].
  rewrite Hs. cbn. auto.
Qed.

Lemma polling_at_arrival_reaches_target_witness :
  exists (vs : list R) (self' : BiasAdjustment),
    apply_all (init 20 3) 10 "gradual" (0%Z :: [1; 5; 30; 2]%Z ++ [(0 + response_time (init 20 3))%Z])%list
    = Ok ((vs ++ [10])%list, self') /\
    length vs = S (length [1; 5; 30; 2]%Z) /\
    bias_level self' = 10 /\
    target_bias self' = 10 /\
    target_index self' = (0 + response_time (init 20 3))%Z.
Proof.
  apply (polling_at_arrival_reaches_target (init 20 3) 0 10 "gradual" [1; 5; 30; 2]%Z).
  - cbn. lra.
  - cbn. lia.
  - left. reflexivity.
Defined.

(** ** What every method keeps *)

(** X15: In every state an object can reach, [response_time] is the value
    given to the constructor, and the window is either still the
    constructor's ([target_index = last_update_index = 0]) or exactly
    [response_time] long; no method call, with any arguments, breaks
    this. *)
Theorem window_invariant (rt : Z) (bias_init : R) (self : BiasAdjustment) :
  reachable rt bias_init self ->
  response_time self = rt /\
  ((target_index self = 0%Z /\ last_update_index self = 0%Z) \/
   target_index self = (last_update_index self + rt)%Z).
Proof.
  intros Hreach. apply (reachable_window rt bias_init self Hreach).
Qed.

Lemma window_invariant_witness :
  let self := snd (validate_bias_input (update_target_bias fresh 3 10) 8 4) in
  response_time self = 20%Z /\
  ((target_index self = 0%Z /\ last_update_index self = 0%Z) \/
   target_index self = (last_update_index self + 20)%Z).
Proof.
  apply (window_invariant 20 0 (snd (validate_bias_input (update_target_bias fresh 3 10) 8 4))).
  apply reach_validate. apply reach_update. apply reach_init.
Defined.
